(** * aiob2 [Client] (src/aiob2/bucket.py): a shallow embedding

    The client threads mutable instance state ([_bucket_list], the HTTP
    session of [_http]) through asynchronous calls to an HTTP transport
    collaborator.  We model a call as a state/exception computation over
    the client state, extended with the log of every transport call issued
    so far.  The transport itself is a record of functions of that log, so
    that any deterministic transport behaviour (paged stores, a backend
    error on the second page, ...) can be written down. *)

From Stdlib Require Import List String ZArith Bool Lia.
Import ListNotations.
Open Scope Z_scope.

(** ** Data model *)

(** A file entry as built by [File(d)]; the field mapping from the raw JSON
    record is the identity on the fields that matter here. *)
Record File := mkFile { fileId : string; fileName : string }.

(** [BucketInfo] of [.http]: identifier and name. *)
Record BucketInfo := mkBucketInfo { bucketId : string; bucketName : string }.

(** Modelled from the spec: the exceptions of [.errors] (errors.py is not in
    src).  [BackblazeException msg] is what [get_bucket_from_name] raises with
    a message; the transport's backend error carries the HTTP status and the
    server payload. *)
Inductive exn :=
| BackblazeException (message : string)
| HTTPException (status : Z) (payload : string).

(** The JSON answer of one [b2_list_file_names] page. *)
Record Page := mkPage { files : list File; nextFileName : option string }.

(** The arguments of one [self._http.list_file_names(...)] request. *)
Record ListReq := mkListReq {
  req_bucket_id : string;
  req_start_file_name : option string;
  req_max_file_count : option Z;
  req_prefix : option string;
  req_delimiter : option string }.

(** The arguments of one [self._http.upload_file(...)] request. *)
Record UploadReq := mkUploadReq {
  up_content_bytes : list Byte.byte;
  up_content_type : string;
  up_file_name : string;
  up_bucket_id : string }.

(** Every call the client makes on its transport collaborator. *)
Inductive Call :=
| CallGetListBuckets
| CallListFileNames (r : ListReq)
| CallUploadFile (u : UploadReq)
| CallSessionClose.

(** The transport collaborator: each method answers as a function of the
    calls issued before it (its history) and of its arguments, with either
    a raised exception ([inl]) or a value ([inr]). *)
Record Transport := mkTransport {
  t_get_list_buckets : list Call -> exn + list BucketInfo;
  t_list_file_names : list Call -> ListReq -> exn + Page;
  t_upload_file : list Call -> UploadReq -> exn + File }.

(** An [aiohttp.ClientSession]; [closed] records whether [close()] ran. *)
Record Session := mkSession { closed : bool }.

(** The client instance: [self._http._session], [self._bucket_list], and the
    log of transport calls. *)
Record Client := mkClient {
  http_session : option Session;
  bucket_list : option (list BucketInfo);
  trace : list Call }.

(** [Client(key_id, key, session=...)]. *)
Definition new_client (session : option Session) : Client :=
  mkClient session None [].

(** ** The state/exception monad of an [async] method *)

(** [OutOfFuel] only arises from the fuel bound on the listing loop, which
    has no termination measure of its own. *)
Inductive outcome (A : Type) :=
| Ok (a : A)
| Raise (e : exn)
| OutOfFuel.
Arguments Ok {A} a.
Arguments Raise {A} e.
Arguments OutOfFuel {A}.

Definition M (A : Type) := Client -> outcome A * Client.

Definition ret {A} (a : A) : M A := fun s => (Ok a, s).
Definition raise {A} (e : exn) : M A := fun s => (Raise e, s).
Definition out_of_fuel {A} : M A := fun s => (OutOfFuel, s).
Definition bind {A B} (m : M A) (k : A -> M B) : M B :=
  fun s => match m s with
           | (Ok a, s') => k a s'
           | (Raise e, s') => (Raise e, s')
           | (OutOfFuel, s') => (OutOfFuel, s')
           end.

Notation "x <- m ;; k" := (bind m (fun x => k))
  (at level 61, m at next level, right associativity).

Definition set_bucket_list (l : list BucketInfo) : M unit :=
  fun s => (Ok tt, mkClient (http_session s) (Some l) (trace s)).

Section Client.

Variable T : Transport.

(** Modelled from the spec: the [HTTPClient] methods of [.http] (http.py is
    not in src).  Each request lazily creates the session if none was given,
    is logged, and returns the transport's answer or raises its error. *)
Definition ensure_session (o : option Session) : option Session :=
  match o with
  | Some x => Some x
  | None => Some (mkSession false)
  end.

Definition http_call {A} (c : Call) (answer : list Call -> exn + A) : M A :=
  fun s =>
    let s' := mkClient (ensure_session (http_session s)) (bucket_list s)
                       (trace s ++ [c]) in
    match answer (trace s) with
    | inl e => (Raise e, s')
    | inr a => (Ok a, s')
    end.

Definition http_get_list_buckets : M (list BucketInfo) :=
  http_call CallGetListBuckets (t_get_list_buckets T).

Definition http_list_file_names (r : ListReq) : M Page :=
  http_call (CallListFileNames r) (fun h => t_list_file_names T h r).

Definition http_upload_file (u : UploadReq) : M File :=
  http_call (CallUploadFile u) (fun h => t_upload_file T h u).

(** [await self._http._session.close()] *)
Definition session_close : M unit :=
  fun s =>
    (Ok tt, mkClient (option_map (fun _ => mkSession true) (http_session s))
                     (bucket_list s) (trace s ++ [CallSessionClose])).

(** ** [Client] methods *)

(** [close]: closes the session only when one exists. *)
Definition close : M unit :=
  fun s =>
    match http_session s with
    | Some _ => session_close s
    | None => ret tt s
    end.

(** [__aexit__] *)
Definition aexit {X Y Z' : Type} (exc_type : X) (exc_val : Y) (exc_tb : Z') : M unit :=
  close.

(** [list_buckets]: fetch on first use, then reuse [_bucket_list]. *)
Definition list_buckets : M (list BucketInfo) :=
  fun s =>
    match bucket_list s with
    | None => (l <- http_get_list_buckets ;; _ <- set_bucket_list l ;; ret l) s
    | Some l => ret l s
    end.

(** Python's [x is None]. *)
Definition is_None {A} (o : option A) : bool :=
  match o with
  | Some _ => false
  | None => true
  end.

(** Python's [f"{x}"] on an [Optional[str]]. *)
Definition py_str (o : option string) : string :=
  match o with
  | Some x => x
  | None => "None"%string
  end.

(** [bucket.bucketName == bucket_name]: a [str] never equals [None]. *)
Definition name_eq (b : BucketInfo) (o : option string) : bool :=
  match o with
  | Some n => String.eqb (bucketName b) n
  | None => false
  end.

(** [get_bucket_from_name]: linear scan of the cached list. *)
Definition get_bucket_from_name (bucket_name : option string) : M BucketInfo :=
  l <- list_buckets ;;
  match find (fun b => name_eq b bucket_name) l with
  | Some b => ret b
  | None => raise (BackblazeException ("Unknown bucket " ++ py_str bucket_name)%string)
  end.

(** The [while continue_iteration] loop of [list_file_names]; [fuel] bounds
    the number of pages requested. *)
Fixpoint lfn_loop (fuel : nat) (bucket_id : string) (prefix delimiter : option string)
    (initial_max_file_count : Z) (acc : list File) (start_file_name : option string)
    (max_file_count : option Z) (actual_file_count : Z) : M (list File) :=
  match fuel with
  | O => out_of_fuel
  | S f =>
      data <- http_list_file_names
                (mkListReq bucket_id start_file_name max_file_count prefix delimiter) ;;
      let acc' := acc ++ files data in
      let start' := nextFileName data in
      let count' := actual_file_count + Z.of_nat (List.length acc') in
      if (initial_max_file_count <=? count') || is_None start'
      then ret acc'
      else lfn_loop f bucket_id prefix delimiter initial_max_file_count acc' start'
                    (Some (initial_max_file_count - count')) count'
  end.

(** [list_file_names]: the cap set-up, then the loop. *)
Definition list_file_names (fuel : nat) (bucket_id : string)
    (start_file_name : option string) (max_file_count : option Z)
    (prefix delimiter : option string) : M (list File) :=
  let '(initial, first) :=
    match max_file_count with
    | None => (100, None)
    | Some m => if 10000 <? m then (m, Some 10000) else (m, Some m)
    end in
  lfn_loop fuel bucket_id prefix delimiter initial [] start_file_name first 0.

(** [upload_file]: the identifier, when given, takes precedence. *)
Definition upload_file (content_bytes : list Byte.byte) (content_type file_name : string)
    (bucket_id bucket_name : option string) : M File :=
  bid <- match bucket_id with
         | None => b <- get_bucket_from_name bucket_name ;; ret (bucketId b)
         | Some i => ret i
         end ;;
  http_upload_file (mkUploadReq content_bytes content_type file_name bid).

End Client.

(** ** Simulated transports *)

(** The page size a B2-like server applies: absent or non-positive means
    the default of 100. *)
Definition served_page_size (m : option Z) : nat :=
  match m with
  | None => 100%nat
  | Some z => if z <=? 0 then 100%nat else Z.to_nat z
  end.

(** Resume a listing at the entry named [c]. *)
Fixpoint drop_to (c : string) (l : list File) : list File :=
  match l with
  | [] => []
  | x :: r => if String.eqb (fileName x) c then l else drop_to c r
  end.

(** A store of [store] entries served in pages of at most [P] entries, never
    more than the page size asked for; the continuation marker is the name
    of the next entry, absent at the end. *)
Definition paged_store (P : nat) (store : list File) (buckets : list BucketInfo) : Transport :=
  mkTransport
    (fun _ => inr buckets)
    (fun _ r =>
       let rest := match req_start_file_name r with
                   | None => store
                   | Some c => drop_to c store
                   end in
       let n := Nat.min (served_page_size (req_max_file_count r)) P in
       inr (mkPage (firstn n rest) (option_map fileName (nth_error rest n))))
    (fun _ u => inr (mkFile "4_z_uploaded" (up_file_name u))).

Definition fe (n : string) : File := mkFile ("id_" ++ n) n.

Definition store5 : list File := [fe "a"; fe "b"; fe "c"; fe "d"; fe "e"].

(** A caller that runs client operations one after the other on the same
    instance, catching whatever each one raises. *)
Inductive Op := OpListBuckets | OpGetBucket (name : option string).

Definition run_op (T : Transport) (op : Op) : M unit :=
  fun s =>
    match op with
    | OpListBuckets => (Ok tt, snd (list_buckets T s))
    | OpGetBucket n => (Ok tt, snd (get_bucket_from_name T n s))
    end.

Fixpoint run_ops (T : Transport) (ops : list Op) : M unit :=
  match ops with
  | [] => ret tt
  | op :: rest => fun s => run_ops T rest (snd (run_op T op s))
  end.

(** ** Helper lemmas *)

Lemma map_CallListFileNames_inj (a b : list ListReq) :
  map CallListFileNames a = map CallListFileNames b -> a = b.
Proof.
  revert b; induction a as [|x a IH]; intros [|y b] H; simpl in H;
    try discriminate; auto.
  injection H as Hxy Hab. subst y. f_equal. now apply IH.
Qed.

Lemma lfn_loop_trace (T : Transport) fuel bid pre del init acc st mc cnt s :
  exists reqs,
    trace (snd (lfn_loop T fuel bid pre del init acc st mc cnt s))
      = trace s ++ map CallListFileNames reqs.
Proof.
  revert acc st mc cnt s.
  induction fuel as [|f IH]; intros acc st mc cnt s; simpl.
  - exists []. now rewrite app_nil_r.
  - unfold bind, http_list_file_names, http_call; simpl.
    destruct (t_list_file_names T (trace s) _) as [e|p]; simpl.
    + eexists [_]. reflexivity.
    + destruct (_ || _); simpl.
      * eexists [_]. reflexivity.
      * match goal with
        | |- exists _, trace (snd (lfn_loop T f _ _ _ _ ?a ?b ?c ?d ?s1)) = _ =>
            destruct (IH a b c d s1) as [reqs Hr]
        end.
        rewrite Hr. simpl. exists (mkListReq bid st mc pre del :: reqs).
        now rewrite <- app_assoc.
Qed.

(** What each page answer implies for the rest of the loop: an error ends
    the call with that error, a null continuation marker ends it with a list;
    either way that request is the last one. *)
Lemma lfn_loop_responses (T : Transport) fuel bid pre del init acc st mc cnt s o s' reqs :
  lfn_loop T fuel bid pre del init acc st mc cnt s = (o, s') ->
  trace s' = trace s ++ map CallListFileNames reqs ->
  forall i r, nth_error reqs i = Some r ->
  match t_list_file_names T (trace s ++ map CallListFileNames (firstn i reqs)) r with
  | inl e => List.length reqs = S i /\ o = Raise e
  | inr p => nextFileName p = None -> List.length reqs = S i /\ exists fs, o = Ok fs
  end.
Proof.
  revert acc st mc cnt s o s' reqs.
  induction fuel as [|f IH]; intros acc st mc cnt s o s' reqs Hrun Htr i r Hi; simpl in Hrun.
  - injection Hrun as <- <-.
    rewrite <- (app_nil_r (trace s)) in Htr at 1.
    apply app_inv_head in Htr.
    destruct reqs; [destruct i; discriminate | discriminate].
  - unfold bind, http_list_file_names, http_call in Hrun; simpl in Hrun.
    set (r0 := mkListReq bid st mc pre del) in *.
    destruct (t_list_file_names T (trace s) r0) as [e|p] eqn:Hans.
    + injection Hrun as <- <-. simpl in Htr. apply app_inv_head in Htr.
      destruct reqs as [|r1 [|]]; try discriminate.
      injection Htr as ->. destruct i as [|[|]]; try discriminate.
      injection Hi as <-. simpl. rewrite app_nil_r, Hans. auto.
    + destruct ((init <=? cnt + Z.of_nat (List.length (acc ++ files p)))
                || is_None (nextFileName p)) eqn:Hstop.
      * injection Hrun as <- <-. simpl in Htr. apply app_inv_head in Htr.
        destruct reqs as [|r1 [|]]; try discriminate.
        injection Htr as ->. destruct i as [|[|]]; try discriminate.
        injection Hi as <-. simpl. rewrite app_nil_r, Hans. eauto.
      * set (s1 := mkClient (ensure_session (http_session s)) (bucket_list s)
                            (trace s ++ [CallListFileNames r0])) in *.
        destruct (lfn_loop_trace T f bid pre del init (acc ++ files p) (nextFileName p)
                    (Some (init - (cnt + Z.of_nat (List.length (acc ++ files p)))))
                    (cnt + Z.of_nat (List.length (acc ++ files p))) s1) as [reqs' Hr'].
        rewrite Hrun in Hr'. simpl in Hr'. pose proof Hr' as Htr'.
        rewrite Htr, <- app_assoc in Hr'. apply app_inv_head in Hr'.
        change ([CallListFileNames r0] ++ map CallListFileNames reqs')
          with (map CallListFileNames (r0 :: reqs')) in Hr'.
        apply map_CallListFileNames_inj in Hr'. subst reqs.
        destruct i as [|j].
        -- injection Hi as <-. simpl. rewrite app_nil_r, Hans. intros Hnone.
           rewrite Hnone, orb_true_r in Hstop. discriminate.
        -- simpl in Hi |- *.
           specialize (IH _ _ _ _ s1 o s' reqs' Hrun Htr' j r Hi).
           replace (trace s ++ CallListFileNames r0 :: map CallListFileNames (firstn j reqs'))
             with (trace s1 ++ map CallListFileNames (firstn j reqs'))
             by (simpl; now rewrite <- app_assoc).
           destruct (t_list_file_names T _ r); intuition congruence.
Qed.

Lemma list_file_names_as_loop (T : Transport) fuel bid start cap pre del :
  exists init first,
    list_file_names T fuel bid start cap pre del
      = lfn_loop T fuel bid pre del init [] start first 0.
Proof.
  unfold list_file_names. destruct cap as [m|]; [destruct (10000 <? m)|]; eauto.
Qed.

(** A transport that serves [store5] one entry per page but fails the
    second page request with a backend error. *)
Definition err503 : exn := HTTPException 503 "service_unavailable".

Definition fail_second_page : Transport :=
  mkTransport
    (fun _ => inr [])
    (fun h r => match h with
                | [] => t_list_file_names (paged_store 1 store5 []) h r
                | _ => inl err503
                end)
    (fun _ u => inr (mkFile "4_z_uploaded" (up_file_name u))).

Definition req_a (m : Z) : ListReq := mkListReq "bkt" None (Some m) None None.
Definition req_from (c : string) (m : Z) : ListReq := mkListReq "bkt" (Some c) (Some m) None None.

(** ** Pagination aggregator *)

(** C1 (code_bug).  With cap 3 over a store of 5 entries served one per
    page, the call returns only 2 entries, fewer than min(3, 5): after the
    second page [actual_file_count] is 1 + 2 = 3, because each iteration adds
    the length of the whole accumulated list rather than of the new page. *)
Theorem list_file_names_cap3_returns_two :
  fst (list_file_names (paged_store 1 store5 []) 10 "bkt" None (Some 3) None None
         (new_client None)) = Ok [fe "a"; fe "b"]
  /\ (List.length [fe "a"; fe "b"] < Nat.min 3 (List.length store5))%nat.
Proof. split; [vm_compute; reflexivity | simpl; lia]. Qed.

(** C2 (code_bug).  With cap 50000 and a transport serving one entry per
    page, the second page request carries page size 49999 > 10000: only the
    first page size is clamped. *)
Theorem list_file_names_cap50000_second_page_size :
  nth_error (trace (snd (list_file_names (paged_store 1 store5 []) 10 "bkt" None
                           (Some 50000) None None (new_client None)))) 1
    = Some (CallListFileNames (req_from "b" 49999))
  /\ 10000 < 49999.
Proof. split; [vm_compute; reflexivity | lia]. Qed.

(** C3 (code_bug).  Over a store of 3 entries served one per page, cap 0
    stops after one page and returns one entry, while cap 100 and the
    omitted cap request three pages and return all three; the omitted cap
    also forwards an absent page size on its first request, cap 100 a page
    size of 100. *)
Theorem list_file_names_cap0_differs_from_100 :
  let T := paged_store 1 (firstn 3 store5) [] in
  let run cap := list_file_names T 10 "bkt" None cap None None (new_client None) in
  fst (run (Some 0)) = Ok [fe "a"]
  /\ trace (snd (run (Some 0))) = [CallListFileNames (req_a 0)]
  /\ fst (run (Some 100)) = Ok [fe "a"; fe "b"; fe "c"]
  /\ trace (snd (run (Some 100)))
       = [CallListFileNames (req_a 100); CallListFileNames (req_from "b" 99);
          CallListFileNames (req_from "c" 97)]
  /\ fst (run None) = Ok [fe "a"; fe "b"; fe "c"]
  /\ trace (snd (run None))
       = [CallListFileNames (mkListReq "bkt" None None None None);
          CallListFileNames (req_from "b" 99); CallListFileNames (req_from "c" 97)].
Proof. vm_compute. repeat split. Qed.

(** C5.  If the transport answers some page request of a [list_file_names]
    call with a null continuation marker, that request is the last one the
    call issues, and the call returns a list, whatever the accumulated count
    and the cap.  The [i]-th request is answered given the calls before it. *)
Theorem list_file_names_null_cursor_stops (T : Transport) fuel bid start cap pre del
    (s : Client) o s' (reqs : list ListReq) :
  list_file_names T fuel bid start cap pre del s = (o, s') ->
  trace s' = trace s ++ map CallListFileNames reqs ->
  forall i r p,
    nth_error reqs i = Some r ->
    t_list_file_names T (trace s ++ map CallListFileNames (firstn i reqs)) r = inr p ->
    nextFileName p = None ->
    List.length reqs = S i /\ exists fs, o = Ok fs.
Proof.
  intros Hrun Htr i r p Hi Hans Hnone.
  destruct (list_file_names_as_loop T fuel bid start cap pre del) as [init [first Heq]].
  rewrite Heq in Hrun.
  pose proof (lfn_loop_responses T fuel bid pre del init [] start first 0 s o s' reqs
                Hrun Htr i r Hi) as H.
  rewrite Hans in H. now apply H.
Qed.

Lemma list_file_names_null_cursor_stops_witness :
  List.length [req_a 100; req_from "b" 99; req_from "c" 97; req_from "d" 94;
               req_from "e" 90] = S 4
  /\ exists fs, fst (list_file_names (paged_store 1 store5 []) 10 "bkt" None (Some 100)
                      None None (new_client None)) = Ok fs.
Proof.
  eapply (list_file_names_null_cursor_stops (paged_store 1 store5 []) 10 "bkt" None
            (Some 100) None None (new_client None) _ _
            [req_a 100; req_from "b" 99; req_from "c" 97; req_from "d" 94; req_from "e" 90]
            (surjective_pairing _) _ 4 (req_from "e" 90)).
  - reflexivity.
  - reflexivity.
  - reflexivity.
  Unshelve. vm_compute. reflexivity.
Defined.

(** C8.  If the transport raises a backend error on some page request of a
    [list_file_names] call, that request is the last one, and the call
    raises that same error: no list is returned. *)
Theorem list_file_names_error_propagates (T : Transport) fuel bid start cap pre del
    (s : Client) o s' (reqs : list ListReq) :
  list_file_names T fuel bid start cap pre del s = (o, s') ->
  trace s' = trace s ++ map CallListFileNames reqs ->
  forall i r e,
    nth_error reqs i = Some r ->
    t_list_file_names T (trace s ++ map CallListFileNames (firstn i reqs)) r = inl e ->
    List.length reqs = S i /\ o = Raise e.
Proof.
  intros Hrun Htr i r e Hi Hans.
  destruct (list_file_names_as_loop T fuel bid start cap pre del) as [init [first Heq]].
  rewrite Heq in Hrun.
  pose proof (lfn_loop_responses T fuel bid pre del init [] start first 0 s o s' reqs
                Hrun Htr i r Hi) as H.
  now rewrite Hans in H.
Qed.

Lemma list_file_names_error_propagates_witness :
  List.length [req_a 3; req_from "b" 2] = 2%nat
  /\ fst (list_file_names fail_second_page 10 "bkt" None (Some 3) None None
            (new_client None)) = Raise err503.
Proof.
  eapply (list_file_names_error_propagates fail_second_page 10 "bkt" None (Some 3) None
            None (new_client None) _ _ [req_a 3; req_from "b" 2]
            (surjective_pairing _) _ 1 (req_from "b" 2) err503).
  - reflexivity.
  - reflexivity.
  Unshelve. vm_compute. reflexivity.
Defined.

(** ** Bucket resolver and cache *)

Lemma name_eq_Some (b : BucketInfo) (n : string) :
  name_eq b (Some n) = true <-> bucketName b = n.
Proof. simpl. apply String.eqb_eq. Qed.

(** C4.  Once the bucket list is available (cached or fetched), resolving
    [n] raises the bucket-not-found error [BackblazeException] whose message
    carries [n] exactly when no bucket of the list is named [n] (exact string
    equality); that error is never the transport's [HTTPException]; on a
    match it returns a bucket of the list named [n], with its identifier. *)
Theorem get_bucket_from_name_spec (T : Transport) (s s1 : Client) (n : string)
    (L : list BucketInfo) :
  list_buckets T s = (Ok L, s1) ->
  (fst (get_bucket_from_name T (Some n) s)
     = Raise (BackblazeException ("Unknown bucket " ++ n))
   <-> Forall (fun b => bucketName b <> n) L)
  /\ (forall st pl, fst (get_bucket_from_name T (Some n) s) <> Raise (HTTPException st pl))
  /\ (forall b, fst (get_bucket_from_name T (Some n) s) = Ok b ->
        In b L /\ bucketName b = n)
  /\ (Exists (fun b => bucketName b = n) L ->
        exists b, fst (get_bucket_from_name T (Some n) s) = Ok b).
Proof.
  intros H. unfold get_bucket_from_name, bind. rewrite H.
  destruct (find (fun b => name_eq b (Some n)) L) as [b|] eqn:Hf; simpl.
  - apply find_some in Hf as [Hin Heq]. apply name_eq_Some in Heq.
    split; [split|split; [|split]].
    + intros Hc. discriminate Hc.
    + intros Hall. rewrite Forall_forall in Hall. destruct (Hall b Hin Heq).
    + intros st pl Hc. discriminate Hc.
    + intros b' Hb'. injection Hb' as <-. auto.
    + intros _. eauto.
  - assert (Hno : forall x, In x L -> bucketName x <> n).
    { intros x Hx Heq. apply name_eq_Some in Heq.
      pose proof (find_none _ _ Hf x Hx). congruence. }
    split; [split|split; [|split]].
    + intros _. now apply Forall_forall.
    + reflexivity.
    + intros st pl Hc. discriminate Hc.
    + intros b Hb. discriminate Hb.
    + intros Hex. apply Exists_exists in Hex as [x [Hx Heq]].
      destruct (Hno x Hx Heq).
Qed.

Definition buckets_ab : list BucketInfo :=
  [mkBucketInfo "1" "a"; mkBucketInfo "2" "b"].

Lemma get_bucket_from_name_spec_witness :
  (fst (get_bucket_from_name (paged_store 1 [] buckets_ab) (Some "c"%string)
          (mkClient None (Some buckets_ab) []))
     = Raise (BackblazeException ("Unknown bucket " ++ "c")%string)
   <-> Forall (fun b => bucketName b <> "c"%string) buckets_ab)
  /\ (forall st pl, fst (get_bucket_from_name (paged_store 1 [] buckets_ab) (Some "c"%string)
                          (mkClient None (Some buckets_ab) []))
                    <> Raise (HTTPException st pl))
  /\ (forall b, fst (get_bucket_from_name (paged_store 1 [] buckets_ab) (Some "c"%string)
                       (mkClient None (Some buckets_ab) [])) = Ok b ->
        In b buckets_ab /\ bucketName b = "c"%string)
  /\ (Exists (fun b => bucketName b = "c"%string) buckets_ab ->
        exists b, fst (get_bucket_from_name (paged_store 1 [] buckets_ab) (Some "c"%string)
                         (mkClient None (Some buckets_ab) [])) = Ok b).
Proof.
  apply (get_bucket_from_name_spec (paged_store 1 [] buckets_ab)
           (mkClient None (Some buckets_ab) []) (mkClient None (Some buckets_ab) [])
           "c" buckets_ab).
  reflexivity.
Defined.

Lemma run_op_cached (T : Transport) op s L :
  bucket_list s = Some L -> snd (run_op T op s) = s.
Proof.
  intros H. destruct op as [|n]; simpl; unfold list_buckets.
  - now rewrite H.
  - unfold get_bucket_from_name, bind, list_buckets. rewrite H. simpl.
    now destruct (find _ L).
Qed.

Lemma run_ops_cached (T : Transport) ops s L :
  bucket_list s = Some L -> snd (run_ops T ops s) = s.
Proof.
  revert s; induction ops as [|op ops IH]; intros s H; [reflexivity|].
  simpl. rewrite (run_op_cached T op s L H). now apply IH.
Qed.

Lemma run_op_fetch (T : Transport) op s :
  bucket_list s = None ->
  snd (run_op T op s)
    = mkClient (ensure_session (http_session s))
        (match t_get_list_buckets T (trace s) with
         | inl _ => None
         | inr L => Some L
         end)
        (trace s ++ [CallGetListBuckets]).
Proof.
  intros H. destruct op as [|n]; simpl;
    unfold get_bucket_from_name, list_buckets, bind, http_get_list_buckets, http_call;
    rewrite H; simpl; destruct (t_get_list_buckets T (trace s)) as [e|L]; simpl;
    rewrite ?H; try reflexivity.
  now destruct (find _ L).
Qed.

(** A transport whose first bucket-list fetch fails. *)
Definition flaky_buckets : Transport :=
  mkTransport
    (fun h => match h with
              | [] => inl err503
              | _ => inr buckets_ab
              end)
    (fun h r => t_list_file_names (paged_store 1 [] buckets_ab) h r)
    (fun _ u => inr (mkFile "4_z_uploaded" (up_file_name u))).

(** C6 (counterexample).  When the first fetch raises, the next
    [list_buckets] call fetches again: two calls, two transport calls. *)
Lemma list_buckets_twice_two_fetches :
  trace (snd (run_ops flaky_buckets [OpListBuckets; OpListBuckets] (new_client None)))
    = [CallGetListBuckets; CallGetListBuckets].
Proof. reflexivity. Qed.

(** C6 (amended).  Calls issued one after the other on one client: once the
    cache holds a list, no [list_buckets] or [get_bucket_from_name] call, for
    any names in any order, issues a transport call; from an empty cache the
    first such call fetches once, and if that fetch succeeds the whole
    sequence issues exactly that one call, while a failed fetch leaves the
    cache empty. *)
Theorem bucket_cache_reuse (T : Transport) (s : Client) (op : Op) (ops : list Op) :
  (forall L, bucket_list s = Some L ->
     trace (snd (run_ops T (op :: ops) s)) = trace s)
  /\ (bucket_list s = None -> forall L, t_get_list_buckets T (trace s) = inr L ->
        trace (snd (run_ops T (op :: ops) s)) = trace s ++ [CallGetListBuckets]
        /\ bucket_list (snd (run_ops T (op :: ops) s)) = Some L)
  /\ (bucket_list s = None -> forall e, t_get_list_buckets T (trace s) = inl e ->
        trace (snd (run_op T op s)) = trace s ++ [CallGetListBuckets]
        /\ bucket_list (snd (run_op T op s)) = None).
Proof.
  split; [|split].
  - intros L H. now rewrite (run_ops_cached T (op :: ops) s L H).
  - intros H L HL. simpl.
    assert (Hc : bucket_list (snd (run_op T op s)) = Some L)
      by (rewrite run_op_fetch by exact H; simpl; now rewrite HL).
    rewrite (run_ops_cached T ops _ L Hc). split; [|exact Hc].
    rewrite run_op_fetch by exact H. reflexivity.
  - intros H e He. rewrite run_op_fetch by exact H. simpl. now rewrite He.
Qed.

Lemma bucket_cache_reuse_witness :
  trace (snd (run_ops (paged_store 1 [] buckets_ab) [OpGetBucket (Some "a"%string); OpGetBucket (Some "b"%string)]
                (new_client None)))
    = [CallGetListBuckets]
  /\ bucket_list (snd (run_ops (paged_store 1 [] buckets_ab) [OpGetBucket (Some "a"%string); OpGetBucket (Some "b"%string)]
                     (new_client None)))
    = Some buckets_ab.
Proof.
  destruct (bucket_cache_reuse (paged_store 1 [] buckets_ab) (new_client None)
              (OpGetBucket (Some "a"%string)) [OpGetBucket (Some "b"%string)]) as [_ [H _]].
  apply (H eq_refl buckets_ab eq_refl).
Defined.

(** ** Upload and close *)

(** C7.  When [upload_file] is given a bucket identifier (with or without a
    bucket name), its only transport call is the upload request for that
    identifier: the resolver is not run and no bucket list is fetched. *)
Theorem upload_file_id_takes_precedence (T : Transport) (bytes : list Byte.byte)
    (content_type file_name bucket_id : string) (bucket_name : option string) (s : Client) :
  trace (snd (upload_file T bytes content_type file_name (Some bucket_id) bucket_name s))
    = trace s ++ [CallUploadFile (mkUploadReq bytes content_type file_name bucket_id)]
  /\ bucket_list (snd (upload_file T bytes content_type file_name (Some bucket_id)
                         bucket_name s)) = bucket_list s.
Proof.
  unfold upload_file, bind, ret, http_upload_file, http_call; simpl.
  destruct (t_upload_file T (trace s) _); split; reflexivity.
Qed.

Lemma find_name_None (L : list BucketInfo) :
  find (fun b => name_eq b None) L = None.
Proof. induction L as [|b L IH]; simpl; auto. Qed.

(** C9.  With neither a bucket identifier nor a name, [upload_file] runs
    the resolver on [None]: it never issues an upload request, its only
    possible transport call is the bucket-list fetch, and it raises the
    not-found error "Unknown bucket None" (or, when the fetch itself fails,
    the fetch's error). *)
Theorem upload_file_no_bucket (T : Transport) (bytes : list Byte.byte)
    (content_type file_name : string) (s : Client) :
  trace (snd (upload_file T bytes content_type file_name None None s))
    = trace s ++ match bucket_list s with
                 | Some _ => []
                 | None => [CallGetListBuckets]
                 end
  /\ fst (upload_file T bytes content_type file_name None None s)
     = match bucket_list s, t_get_list_buckets T (trace s) with
       | None, inl e => Raise e
       | _, _ => Raise (BackblazeException "Unknown bucket None")
       end.
Proof.
  unfold upload_file, get_bucket_from_name, list_buckets, bind, ret, raise,
    http_get_list_buckets, http_call, set_bucket_list.
  destruct (bucket_list s) as [L|] eqn:Hb.
  - simpl. rewrite find_name_None. simpl. now rewrite app_nil_r.
  - destruct (t_get_list_buckets T (trace s)) as [e|L]; simpl.
    + split; reflexivity.
    + rewrite find_name_None. split; reflexivity.
Qed.

(** C10.  [close] never raises; on a client whose session was never created
    it does nothing at all, and otherwise it closes the existing session;
    [__aexit__] is [close], whatever exception it is handed. *)
Theorem close_safe (s : Client) :
  (http_session s = None -> close s = (Ok tt, s))
  /\ (forall sess, http_session s = Some sess ->
        close s = (Ok tt, mkClient (Some (mkSession true)) (bucket_list s)
                                   (trace s ++ [CallSessionClose])))
  /\ fst (close s) = Ok tt
  /\ (forall (X Y Z' : Type) (exc_type : X) (exc_val : Y) (exc_tb : Z'),
        aexit exc_type exc_val exc_tb s = close s).
Proof.
  unfold close, session_close, ret.
  split; [|split; [|split]].
  - intros H. now rewrite H.
  - intros sess H. now rewrite H.
  - now destruct (http_session s).
  - reflexivity.
Qed.

Lemma close_safe_witness :
  http_session (new_client None) = None
  /\ close (new_client None) = (Ok tt, new_client None).
Proof.
  split; [reflexivity|].
  apply (proj1 (close_safe (new_client None))). reflexivity.
Defined.

(** ** Further properties of the listing loop *)

(** [initial_max_file_count] and the first [max_file_count] as lines
    102-107 of [list_file_names] set them. *)
Definition initial_cap (max_file_count : option Z) : Z :=
  match max_file_count with
  | None => 100
  | Some m => m
  end.

Definition first_page_size (max_file_count : option Z) : option Z :=
  match max_file_count with
  | None => None
  | Some m => if 10000 <? m then Some 10000 else Some m
  end.

(** The pages the transport answers to a sequence of list requests, issued
    in order after the history [h]; [None] if one of them is an error. *)
Fixpoint pages_of (T : Transport) (h : list Call) (reqs : list ListReq) : option (list Page) :=
  match reqs with
  | [] => Some []
  | r :: rs =>
      match t_list_file_names T h r with
      | inl _ => None
      | inr p => option_map (cons p) (pages_of T (h ++ [CallListFileNames r]) rs)
      end
  end.

Lemma list_file_names_unfold (T : Transport) fuel bid start cap pre del :
  list_file_names T fuel bid start cap pre del
    = lfn_loop T fuel bid pre del (initial_cap cap) [] start (first_page_size cap) 0.
Proof.
  unfold list_file_names, initial_cap, first_page_size.
  destruct cap as [m|]; [destruct (10000 <? m)|]; reflexivity.
Qed.

(** One iteration of the loop, read off a run and its request log. *)
Lemma lfn_loop_step (T : Transport) f bid pre del init acc st mc cnt s o s' reqs :
  lfn_loop T (S f) bid pre del init acc st mc cnt s = (o, s') ->
  trace s' = trace s ++ map CallListFileNames reqs ->
  let r0 := mkListReq bid st mc pre del in
  let s1 := mkClient (ensure_session (http_session s)) (bucket_list s)
                     (trace s ++ [CallListFileNames r0]) in
  exists reqs', reqs = r0 :: reqs' /\
  match t_list_file_names T (trace s) r0 with
  | inl e => reqs' = [] /\ o = Raise e
  | inr p =>
      let acc' := acc ++ files p in
      let cnt' := cnt + Z.of_nat (List.length acc') in
      ((init <=? cnt') || is_None (nextFileName p) = true /\ reqs' = [] /\ o = Ok acc')
      \/ ((init <=? cnt') || is_None (nextFileName p) = false
          /\ lfn_loop T f bid pre del init acc' (nextFileName p) (Some (init - cnt')) cnt' s1
             = (o, s')
          /\ trace s' = trace s1 ++ map CallListFileNames reqs')
  end.
Proof.
  intros Hrun Htr r0 s1. simpl in Hrun.
  unfold bind, http_list_file_names, http_call in Hrun; simpl in Hrun.
  fold r0 s1 in Hrun.
  destruct (t_list_file_names T (trace s) r0) as [e|p] eqn:Hans.
  - injection Hrun as <- <-. simpl in Htr. apply app_inv_head in Htr.
    destruct reqs as [|r1 [|]]; try discriminate. injection Htr as ->.
    exists []. auto.
  - destruct ((init <=? cnt + Z.of_nat (List.length (acc ++ files p)))
              || is_None (nextFileName p)) eqn:Hstop.
    + injection Hrun as <- <-. simpl in Htr. apply app_inv_head in Htr.
      destruct reqs as [|r1 [|]]; try discriminate. injection Htr as ->.
      exists []. auto.
    + destruct (lfn_loop_trace T f bid pre del init (acc ++ files p) (nextFileName p)
                  (Some (init - (cnt + Z.of_nat (List.length (acc ++ files p)))))
                  (cnt + Z.of_nat (List.length (acc ++ files p))) s1) as [reqs' Hr'].
      rewrite Hrun in Hr'. simpl in Hr'.
      exists reqs'. split; [|right; auto].
      rewrite Htr in Hr'. unfold s1 in Hr'. simpl in Hr'.
      rewrite <- app_assoc in Hr'. apply app_inv_head in Hr'.
      change ([CallListFileNames r0] ++ map CallListFileNames reqs')
        with (map CallListFileNames (r0 :: reqs')) in Hr'.
      now apply map_CallListFileNames_inj in Hr'.
Qed.

Lemma lfn_loop_first_request (T : Transport) fuel bid pre del init acc st mc cnt s o s' reqs :
  lfn_loop T fuel bid pre del init acc st mc cnt s = (o, s') ->
  trace s' = trace s ++ map CallListFileNames reqs ->
  forall r, nth_error reqs 0 = Some r -> r = mkListReq bid st mc pre del.
Proof.
  intros Hrun Htr r Hr. destruct fuel as [|f].
  - simpl in Hrun. injection Hrun as <- <-.
    rewrite <- (app_nil_r (trace s)) in Htr at 1. apply app_inv_head in Htr.
    destruct reqs; discriminate.
  - destruct (lfn_loop_step T f bid pre del init acc st mc cnt s o s' reqs Hrun Htr)
      as [reqs' [-> _]].
    simpl in Hr. congruence.
Qed.

Lemma lfn_loop_later_requests (T : Transport) fuel bid pre del init acc st mc cnt s o s' reqs :
  lfn_loop T fuel bid pre del init acc st mc cnt s = (o, s') ->
  trace s' = trace s ++ map CallListFileNames reqs ->
  Z.of_nat (List.length acc) <= cnt ->
  forall i r ps,
    nth_error reqs (S i) = Some r ->
    pages_of T (trace s) (firstn (S i) reqs) = Some ps ->
    Z.of_nat (List.length (acc ++ List.concat (map files ps))) < init
    /\ (exists k, req_max_file_count r = Some k
          /\ 1 <= k <= init - Z.of_nat (List.length (acc ++ List.concat (map files ps))))
    /\ (forall p, nth_error ps i = Some p -> req_start_file_name r = nextFileName p)
    /\ req_bucket_id r = bid /\ req_prefix r = pre /\ req_delimiter r = del.
Proof.
  revert acc st mc cnt s o s' reqs.
  induction fuel as [|f IH]; intros acc st mc cnt s o s' reqs Hrun Htr Hinv i r ps Hr Hps.
  - simpl in Hrun. injection Hrun as <- <-.
    rewrite <- (app_nil_r (trace s)) in Htr at 1. apply app_inv_head in Htr.
    destruct reqs; discriminate.
  - destruct (lfn_loop_step T f bid pre del init acc st mc cnt s o s' reqs Hrun Htr)
      as [reqs' [-> Hcase]].
    simpl in Hps.
    destruct (t_list_file_names T (trace s) (mkListReq bid st mc pre del)) as [e|p] eqn:Hans.
    + destruct Hcase as [-> _]. destruct i; discriminate.
    + destruct Hcase as [[_ [-> _]] | [Hstop [Hrun' Htr']]].
      * destruct i; discriminate.
      * apply orb_false_iff in Hstop as [Hlt Hnn].
        apply Z.leb_gt in Hlt.
        destruct (pages_of T _ (firstn i reqs')) as [ps'|] eqn:Hps'; [|discriminate].
        simpl in Hps. injection Hps as <-.
        destruct i as [|j].
        -- simpl in Hps'. injection Hps' as <-. simpl in Hr |- *.
           pose proof (lfn_loop_first_request T f bid pre del init _ _ _ _ _ o s' reqs'
                         Hrun' Htr' r Hr) as ->.
           rewrite app_nil_r. simpl.
           repeat split; try reflexivity.
           ++ lia.
           ++ eexists. split; [reflexivity|]. lia.
           ++ intros p' Hp'. injection Hp' as <-. reflexivity.
        -- simpl in Hr.
           assert (Hinv' : Z.of_nat (List.length (acc ++ files p))
                           <= cnt + Z.of_nat (List.length (acc ++ files p))) by lia.
           destruct (IH _ _ _ _ _ o s' reqs' Hrun' Htr' Hinv' j r ps' Hr Hps')
             as [Ha [Hk [Hst Hrest]]].
           simpl map; simpl List.concat. rewrite app_assoc.
           split; [tauto|]. split; [tauto|]. split; [|tauto].
           intros p' Hp'. simpl in Hp'. now apply Hst.
Qed.

Lemma lfn_loop_concat (T : Transport) fuel bid pre del init acc st mc cnt s fs s' reqs :
  lfn_loop T fuel bid pre del init acc st mc cnt s = (Ok fs, s') ->
  trace s' = trace s ++ map CallListFileNames reqs ->
  exists ps, pages_of T (trace s) reqs = Some ps /\ fs = acc ++ List.concat (map files ps).
Proof.
  revert acc st mc cnt s fs s' reqs.
  induction fuel as [|f IH]; intros acc st mc cnt s fs s' reqs Hrun Htr.
  - simpl in Hrun. discriminate.
  - destruct (lfn_loop_step T f bid pre del init acc st mc cnt s _ s' reqs Hrun Htr)
      as [reqs' [-> Hcase]].
    simpl.
    destruct (t_list_file_names T (trace s) (mkListReq bid st mc pre del)) as [e|p].
    + destruct Hcase as [_ Hc]. discriminate.
    + destruct Hcase as [[_ [-> Hfs]] | [_ [Hrun' Htr']]].
      * injection Hfs as ->. exists [p]. simpl. now rewrite !app_nil_r.
      * destruct (IH _ _ _ _ _ fs s' reqs' Hrun' Htr') as [ps [Hps ->]].
        simpl in Hps. rewrite Hps. exists (p :: ps). simpl.
        split; [reflexivity|]. now rewrite app_assoc.
Qed.

Lemma pages_of_length (T : Transport) h reqs ps :
  pages_of T h reqs = Some ps -> List.length ps = List.length reqs.
Proof.
  revert h ps; induction reqs as [|r rs IH]; intros h ps H; simpl in H.
  - now injection H as <-.
  - destruct (t_list_file_names T h r); [discriminate|].
    destruct (pages_of T _ rs) eqn:E; [|discriminate].
    injection H as <-. simpl. f_equal. eauto.
Qed.

Lemma pages_of_firstn (T : Transport) h reqs ps k :
  pages_of T h reqs = Some ps -> pages_of T h (firstn k reqs) = Some (firstn k ps).
Proof.
  revert h ps k; induction reqs as [|r rs IH]; intros h ps k H; simpl in H.
  - injection H as <-. now destruct k.
  - destruct k as [|k]; [reflexivity|].
    simpl. destruct (t_list_file_names T h r); [discriminate|].
    destruct (pages_of T _ rs) eqn:E; [|discriminate].
    injection H as <-. simpl. now rewrite (IH _ _ k E).
Qed.

Lemma nonempty_pages_length (ps : list Page) :
  Forall (fun p => files p <> []) ps ->
  (List.length ps <= List.length (List.concat (map files ps)))%nat.
Proof.
  induction 1 as [|p ps Hp _ IH]; simpl; [lia|].
  rewrite length_app. destruct (files p); [congruence|simpl; lia].
Qed.

Lemma Forall_firstn_pages (P : Page -> Prop) k (ps : list Page) :
  Forall P ps -> Forall P (firstn k ps).
Proof.
  revert k; induction ps as [|p ps IH]; intros [|k] H; simpl; auto.
  inversion H; subst. constructor; auto.
Qed.


(** X1.  A successful [list_file_names] returns exactly the entries of the
    pages the transport answered, in order, with nothing dropped or cut. *)
Theorem list_file_names_result_is_concat (T : Transport) fuel bid start cap pre del
    (s : Client) fs s' :
  list_file_names T fuel bid start cap pre del s = (Ok fs, s') ->
  exists reqs ps,
    trace s' = trace s ++ map CallListFileNames reqs
    /\ pages_of T (trace s) reqs = Some ps
    /\ fs = List.concat (map files ps).
Proof.
  intros Hrun.
  pose proof (lfn_loop_trace T fuel bid pre del (initial_cap cap) [] start
                (first_page_size cap) 0 s) as [reqs Htr].
  rewrite <- list_file_names_unfold, Hrun in Htr. simpl in Htr.
  rewrite list_file_names_unfold in Hrun.
  destruct (lfn_loop_concat T fuel bid pre del _ _ _ _ _ s fs s' reqs Hrun Htr) as [ps [H1 H2]].
  exists reqs, ps. auto.
Qed.

Lemma list_file_names_result_is_concat_witness :
  exists reqs ps,
    trace (snd (list_file_names (paged_store 2 store5 []) 10 "bkt" None None None None
                  (new_client None)))
      = trace (new_client None) ++ map CallListFileNames reqs
    /\ pages_of (paged_store 2 store5 []) (trace (new_client None)) reqs = Some ps
    /\ [fe "a"; fe "b"; fe "c"; fe "d"; fe "e"] = List.concat (map files ps).
Proof.
  apply (list_file_names_result_is_concat (paged_store 2 store5 []) 10 "bkt" None None
           None None (new_client None) [fe "a"; fe "b"; fe "c"; fe "d"; fe "e"]).
  vm_compute. reflexivity.
Defined.

(** X2.  The first request carries the caller's start name, bucket id,
    prefix and delimiter, with page size min(cap, 10000) (absent when the cap
    is omitted); every later request resumes at the continuation marker of
    the page before it, with the same bucket id, prefix and delimiter. *)
Theorem list_file_names_cursor_threading (T : Transport) fuel bid start cap pre del
    (s : Client) o s' :
  list_file_names T fuel bid start cap pre del s = (o, s') ->
  exists reqs,
    trace s' = trace s ++ map CallListFileNames reqs
    /\ (fuel <> O -> nth_error reqs 0 = Some (mkListReq bid start (first_page_size cap) pre del))
    /\ (forall i r ps p,
          nth_error reqs (S i) = Some r ->
          pages_of T (trace s) (firstn (S i) reqs) = Some ps ->
          nth_error ps i = Some p ->
          req_start_file_name r = nextFileName p
          /\ req_bucket_id r = bid /\ req_prefix r = pre /\ req_delimiter r = del).
Proof.
  intros Hrun.
  pose proof (lfn_loop_trace T fuel bid pre del (initial_cap cap) [] start
                (first_page_size cap) 0 s) as [reqs Htr].
  rewrite <- list_file_names_unfold, Hrun in Htr. simpl in Htr.
  rewrite list_file_names_unfold in Hrun.
  exists reqs. split; [exact Htr|split].
  - intros Hf. destruct fuel as [|f]; [congruence|].
    destruct (lfn_loop_step T f bid pre del _ _ _ _ _ s o s' reqs Hrun Htr)
      as [reqs' [-> _]]. reflexivity.
  - intros i r ps p Hr Hps Hp.
    destruct (lfn_loop_later_requests T fuel bid pre del _ [] start _ 0 s o s' reqs
                Hrun Htr ltac:(simpl; lia) i r ps Hr Hps) as [_ [_ [Hst Hrest]]].
    split; [now apply Hst|exact Hrest].
Qed.

Lemma list_file_names_cursor_threading_witness :
  exists reqs,
    trace (snd (list_file_names (paged_store 2 store5 []) 10 "bkt" None None None None
                  (new_client None)))
      = trace (new_client None) ++ map CallListFileNames reqs
    /\ ((10 <> 0)%nat -> nth_error reqs 0
                          = Some (mkListReq "bkt" None (first_page_size None) None None))
    /\ (forall i r ps p,
          nth_error reqs (S i) = Some r ->
          pages_of (paged_store 2 store5 []) (trace (new_client None)) (firstn (S i) reqs)
            = Some ps ->
          nth_error ps i = Some p ->
          req_start_file_name r = nextFileName p
          /\ req_bucket_id r = "bkt"%string /\ req_prefix r = None /\ req_delimiter r = None).
Proof.
  apply (list_file_names_cursor_threading (paged_store 2 store5 []) 10 "bkt" None None
           None None (new_client None) _ _ (surjective_pairing _)).
Defined.

(** X3.  A request after the first is only issued while the entries
    accumulated so far are fewer than the cap (100 when omitted), and its
    page size [k] satisfies 1 <= k <= cap - accumulated: after the first
    page the loop never asks for a non-positive page size, nor for more than
    the entries still missing. *)
Theorem list_file_names_later_request_bounds (T : Transport) fuel bid start cap pre del
    (s : Client) o s' :
  list_file_names T fuel bid start cap pre del s = (o, s') ->
  exists reqs,
    trace s' = trace s ++ map CallListFileNames reqs
    /\ forall i r ps,
         nth_error reqs (S i) = Some r ->
         pages_of T (trace s) (firstn (S i) reqs) = Some ps ->
         let got := Z.of_nat (List.length (List.concat (map files ps))) in
         got < initial_cap cap
         /\ exists k, req_max_file_count r = Some k /\ 1 <= k <= initial_cap cap - got.
Proof.
  intros Hrun.
  pose proof (lfn_loop_trace T fuel bid pre del (initial_cap cap) [] start
                (first_page_size cap) 0 s) as [reqs Htr].
  rewrite <- list_file_names_unfold, Hrun in Htr. simpl in Htr.
  rewrite list_file_names_unfold in Hrun.
  exists reqs. split; [exact Htr|].
  intros i r ps Hr Hps.
  destruct (lfn_loop_later_requests T fuel bid pre del _ [] start _ 0 s o s' reqs
              Hrun Htr ltac:(simpl; lia) i r ps Hr Hps) as [Ha [Hk _]].
  simpl in Ha, Hk. auto.
Qed.

Lemma list_file_names_later_request_bounds_witness :
  exists reqs,
    trace (snd (list_file_names (paged_store 1 store5 []) 10 "bkt" None (Some 4) None None
                  (new_client None)))
      = trace (new_client None) ++ map CallListFileNames reqs
    /\ forall i r ps,
         nth_error reqs (S i) = Some r ->
         pages_of (paged_store 1 store5 []) (trace (new_client None)) (firstn (S i) reqs)
           = Some ps ->
         let got := Z.of_nat (List.length (List.concat (map files ps))) in
         got < initial_cap (Some 4)
         /\ exists k, req_max_file_count r = Some k /\ 1 <= k <= initial_cap (Some 4) - got.
Proof.
  apply (list_file_names_later_request_bounds (paged_store 1 store5 []) 10 "bkt" None
           (Some 4) None None (new_client None) _ _ (surjective_pairing _)).
Defined.

(** X4.  If every page of a successful [list_file_names] call holds at least
    one entry, the call issues at most max(1, cap) page requests. *)
Theorem list_file_names_request_count (T : Transport) fuel bid start cap pre del
    (s : Client) fs s' :
  list_file_names T fuel bid start cap pre del s = (Ok fs, s') ->
  exists reqs ps,
    trace s' = trace s ++ map CallListFileNames reqs
    /\ pages_of T (trace s) reqs = Some ps
    /\ (Forall (fun p => files p <> []) ps ->
        Z.of_nat (List.length reqs) <= Z.max 1 (initial_cap cap)).
Proof.
  intros Hrun.
  pose proof (lfn_loop_trace T fuel bid pre del (initial_cap cap) [] start
                (first_page_size cap) 0 s) as [reqs Htr].
  rewrite <- list_file_names_unfold, Hrun in Htr. simpl in Htr.
  rewrite list_file_names_unfold in Hrun.
  destruct (lfn_loop_concat T fuel bid pre del _ _ _ _ _ s fs s' reqs Hrun Htr) as [ps [Hps _]].
  exists reqs, ps. split; [exact Htr|split; [exact Hps|]].
  intros Hne.
  destruct (Nat.le_gt_cases (List.length reqs) 1) as [Hle|Hgt]; [lia|].
  destruct (nth_error reqs (List.length reqs - 1)) as [r|] eqn:Hr;
    [|apply nth_error_None in Hr; lia].
  replace (List.length reqs - 1)%nat with (S (List.length reqs - 2)) in Hr by lia.
  pose proof (pages_of_firstn T _ _ _ (S (List.length reqs - 2)) Hps) as Hps'.
  destruct (lfn_loop_later_requests T fuel bid pre del _ [] start _ 0 s _ s' reqs
              Hrun Htr ltac:(simpl; lia) _ r _ Hr Hps') as [Ha _].
  rewrite app_nil_l in Ha.
  pose proof (nonempty_pages_length _ (Forall_firstn_pages _ (S (List.length reqs - 2)) ps Hne))
    as Hlen.
  rewrite length_firstn, (pages_of_length T _ _ _ Hps) in Hlen.
  lia.
Qed.

Lemma list_file_names_request_count_witness :
  exists reqs ps,
    trace (snd (list_file_names (paged_store 1 store5 []) 10 "bkt" None (Some 3) None None
                  (new_client None)))
      = trace (new_client None) ++ map CallListFileNames reqs
    /\ pages_of (paged_store 1 store5 []) (trace (new_client None)) reqs = Some ps
    /\ (Forall (fun p => files p <> []) ps ->
        Z.of_nat (List.length reqs) <= Z.max 1 (initial_cap (Some 3))).
Proof.
  apply (list_file_names_request_count (paged_store 1 store5 []) 10 "bkt" None (Some 3)
           None None (new_client None) [fe "a"; fe "b"]).
  vm_compute. reflexivity.
Defined.

(** X5.  With a cap of 0 or below, [list_file_names] issues exactly one
    request, forwarding the cap itself as the page size, and returns that
    page's entries (or raises its error). *)
Theorem list_file_names_nonpositive_cap (T : Transport) f bid start m pre del (s : Client) :
  m <= 0 ->
  list_file_names T (S f) bid start (Some m) pre del s
    = (match t_list_file_names T (trace s) (mkListReq bid start (Some m) pre del) with
       | inl e => Raise e
       | inr p => Ok (files p)
       end,
       mkClient (ensure_session (http_session s)) (bucket_list s)
                (trace s ++ [CallListFileNames (mkListReq bid start (Some m) pre del)])).
Proof.
  intros Hm. unfold list_file_names.
  replace (10000 <? m) with false by (symmetry; apply Z.ltb_ge; lia).
  simpl. unfold bind, http_list_file_names, http_call; simpl.
  destruct (t_list_file_names T (trace s) _) as [e|p]; [reflexivity|].
  destruct (m <=? _) eqn:E; [reflexivity|apply Z.leb_gt in E; lia].
Qed.

Lemma list_file_names_nonpositive_cap_witness :
  -5 <= 0 /\
  list_file_names (paged_store 1 store5 []) 3 "bkt" None (Some (-5)) None None
    (new_client None)
    = (Ok [fe "a"],
       mkClient (Some (mkSession false)) None [CallListFileNames (req_a (-5))]).
Proof.
  split; [lia|].
  rewrite (list_file_names_nonpositive_cap (paged_store 1 store5 []) 2 "bkt" None (-5)
             None None (new_client None) ltac:(lia)).
  reflexivity.
Defined.

(** ** Further properties of the resolver and of upload *)





